(** * The run-termination dialog of dagit, and the orchestration contracts
      around it

    Source: js_modules/dagit/packages/core/src/runs/TerminationDialog.tsx
    (the state initializer, the reducer, [refineToError] and [mutate]) and
    docs/content/deployment/dagster-instance.mdx (the retention and
    run-coordinator configuration).

    JavaScript values are embedded as follows.
    - An object used as a map from run id to [canTerminate] is the list of
      its own properties in enumeration order, so that [Object.keys] is
      the list of first components; a well-formed object has no repeated
      key ([NoDup]).
    - The [errors] object, whose order no function reads, is a [gmap].
    - [number] fields that only ever count runs are integers ([Z]).
    - [null]/[undefined] is [None].
    - A function that may [throw] returns a [Completion], and so does an
      awaited promise, which resolves or rejects. *)

From stdpp Require Import gmap strings list fin_maps.
From Stdlib Require Import ZArith Lia.

Local Open Scope Z_scope.

(** ** Data model of TerminationDialog.tsx *)

(** [TerminateRunPolicy], imported from '../graphql/types'; the two members
    the dialog uses. *)
Inductive TerminateRunPolicy :=
| SAFE_TERMINATE
| MARK_AS_CANCELED_IMMEDIATELY.

(** One member of the GraphQL union under [terminatePipelineExecution]: the
    dialog reads its [__typename] and, when rendering, its [message]. *)
Record TerminateResult := {
  __typename : string;
  message : option string;
}.

(** [TerminateMutation], the [data] of the terminate mutation. *)
Record TerminateMutation := {
  terminatePipelineExecution : TerminateResult;
}.

(** [type SelectedRuns = {[id: string]: boolean}]. *)
Definition SelectedRuns := list (string * bool).

Definition Object_keys (o : SelectedRuns) : list string := map fst o.

(** [o[id]]: the value of the own property [id], [undefined] if absent. *)
Fixpoint get (o : SelectedRuns) (id : string) : option bool :=
  match o with
  | [] => None
  | (k, v) :: rest => if String.eqb k id then Some v else get rest id
  end.

(** Truthiness of a [boolean | undefined]. *)
Definition truthy (v : option bool) : bool :=
  match v with
  | Some b => b
  | None => false
  end.

(** [Array.prototype.some]. *)
Definition some {A} (f : A -> bool) (l : list A) : bool := existsb f l.

(** [type Error = ReturnType<typeof refineToError> | undefined]. *)
Definition Error := option TerminateResult.

(** [type TerminationState = {completed: number; errors: {[id: string]: Error}}]. *)
Record TerminationState := {
  completed : Z;
  errors : gmap string Error;
}.

(** ['initial' | 'terminating' | 'completed']. *)
Inductive Step :=
| step_initial
| step_terminating
| step_completed.

Record TerminationDialogState := {
  mustForce : bool;
  frozenRuns : SelectedRuns;
  step : Step;
  termination : TerminationState;
}.

Inductive TerminationDialogAction :=
| reset (frozen : SelectedRuns)
| toggle_force_terminate (checked : bool)
| start
| termination_success
| termination_error (id : string) (error : Error)
| complete.

(** ** Completions: normal return or a thrown exception *)

Inductive Completion (A : Type) :=
| Returned (a : A)
| Thrown (what : string).
Arguments Returned {A} a.
Arguments Thrown {A} what.

(** ** refineToError (lines 32-37) *)

(** [data?.terminatePipelineExecution]. *)
Definition payload (data : option TerminateMutation) : option TerminateResult :=
  terminatePipelineExecution <$> data.

(** [data?.terminatePipelineExecution.__typename === 'TerminateRunSuccess']. *)
Definition isTerminateRunSuccess (data : option TerminateMutation) : bool :=
  match payload data with
  | Some r => String.eqb (__typename r) "TerminateRunSuccess"
  | None => false
  end.

Definition refineToError (data : option TerminateMutation) : Completion Error :=
  if isTerminateRunSuccess data
  then Thrown "Not an error!"
  else Returned (payload data).

(** ** initializeState (lines 52-60) *)

Definition initializeState (selectedRuns : SelectedRuns) : TerminationDialogState :=
  {| mustForce := negb (some (fun id => truthy (get selectedRuns id))
                             (Object_keys selectedRuns));
     frozenRuns := selectedRuns;
     step := step_initial;
     termination := {| completed := 0; errors := ∅ |} |}.

(** ** terminationDialogReducer (lines 70-104) *)

Definition terminationDialogReducer
    (prevState : TerminationDialogState) (action : TerminationDialogAction)
    : TerminationDialogState :=
  match action with
  | reset frozen => initializeState frozen
  | toggle_force_terminate checked =>
      {| mustForce := checked;
         frozenRuns := frozenRuns prevState;
         step := step prevState;
         termination := termination prevState |}
  | start =>
      {| mustForce := mustForce prevState;
         frozenRuns := frozenRuns prevState;
         step := step_terminating;
         termination := termination prevState |}
  | termination_success =>
      let t := termination prevState in
      {| mustForce := mustForce prevState;
         frozenRuns := frozenRuns prevState;
         step := step_terminating;
         termination := {| completed := completed t + 1; errors := errors t |} |}
  | termination_error id error =>
      let t := termination prevState in
      {| mustForce := mustForce prevState;
         frozenRuns := frozenRuns prevState;
         step := step_terminating;
         termination := {| completed := completed t + 1;
                           errors := <[id := error]> (errors t) |} |}
  | complete =>
      {| mustForce := mustForce prevState;
         frozenRuns := frozenRuns prevState;
         step := step_completed;
         termination := termination prevState |}
  end.

(** The state after React has applied a sequence of dispatched actions. *)
Definition reduce (s : TerminationDialogState) (actions : list TerminationDialogAction)
    : TerminationDialogState :=
  fold_left terminationDialogReducer actions s.

(** ** The effects of [mutate]

    [mutate] dispatches actions to the reducer, calls the [terminate]
    mutation and awaits its result, and finally calls the [onComplete]
    prop.  Its observable behaviour is the sequence of these events in
    program order, together with how the [async] function completes. *)

Inductive Event :=
| Dispatch (action : TerminationDialogAction)
| Terminate (runId : string) (terminatePolicy : TerminateRunPolicy)
| OnComplete (terminationState : TerminationState).

Definition Eff (A : Type) : Type := list Event * Completion A.

Definition ret {A} (a : A) : Eff A := ([], Returned a).

Definition bind {A B} (m : Eff A) (k : A -> Eff B) : Eff B :=
  match m with
  | (tr, Returned a) => (tr ++ fst (k a), snd (k a))
  | (tr, Thrown what) => (tr, Thrown what)
  end.

Definition emit (e : Event) : Eff unit := ([e], Returned tt).

Definition lift {A} (c : Completion A) : Eff A := ([], c).

Declare Scope eff_scope.
Delimit Scope eff_scope with eff.
Notation "x <~ m ;; k" := (bind m (fun x => k))
  (at level 20, m at level 99, k at level 200) : eff_scope.
Notation "m ;;; k" := (bind m (fun _ => k))
  (at level 100, k at level 200, right associativity) : eff_scope.

Definition dispatch (action : TerminationDialogAction) : Eff unit :=
  emit (Dispatch action).

Definition onComplete (terminationState : TerminationState) : Eff unit :=
  emit (OnComplete terminationState).

(** ** mutate (lines 139-160) *)

Section Mutate.

(** What becomes of the promise of the terminate mutation for a run id
    under a policy: it resolves with a result, whose [data] may be missing,
    or it rejects.  [Object.keys] yields each run id once, so one promise
    per run id describes a whole batch. *)
Variable backend :
  string -> TerminateRunPolicy -> Completion (option TerminateMutation).

(** [await terminate({variables: {runId, terminatePolicy: policy}})].
    [useMutation] is given no [onError] (lines 136-138) and the call is
    awaited outside any [try] (line 149): a rejected promise is thrown at
    the [await]. *)
Definition terminate (runId : string) (terminatePolicy : TerminateRunPolicy)
    : Eff (option TerminateMutation) :=
  (emit (Terminate runId terminatePolicy) ;;;
   lift (backend runId terminatePolicy))%eff.

(** Lines 139-141, evaluated in the render that creates [mutate]. *)
Definition policy (state : TerminationDialogState) : TerminateRunPolicy :=
  if mustForce state then MARK_AS_CANCELED_IMMEDIATELY else SAFE_TERMINATE.

(** The body of the [for] loop at index [ii], with [runId = runList[ii]]. *)
Definition mutate_body (terminatePolicy : TerminateRunPolicy) (runId : string)
    : Eff unit :=
  (data <~ terminate runId terminatePolicy ;;
   if isTerminateRunSuccess data
   then dispatch termination_success
   else (error <~ lift (refineToError data) ;;
         dispatch (termination_error runId error)))%eff.

(** [for (let ii = 0; ii < runList.length; ii++)], on the run ids from
    index [ii] on. *)
Fixpoint mutate_loop (terminatePolicy : TerminateRunPolicy) (runList : list string)
    : Eff unit :=
  match runList with
  | [] => ret tt
  | runId :: rest =>
      (mutate_body terminatePolicy runId ;;;
       mutate_loop terminatePolicy rest)%eff
  end.

(** [state] is the constant of the render in which this [mutate] was
    created: the closure reads [state.frozenRuns], [policy] and, on the
    last line, [state.termination] from it.  The reducer builds new state
    objects and never writes to this one. *)
Definition mutate (state : TerminationDialogState) : Eff unit :=
  (dispatch start ;;;
   mutate_loop (policy state) (Object_keys (frozenRuns state)) ;;;
   dispatch complete ;;;
   onComplete (termination state))%eff.

End Mutate.

(** Projections of a trace. *)
Definition dispatched (tr : list Event) : list TerminationDialogAction :=
  omap (fun e => match e with Dispatch a => Some a | _ => None end) tr.

Definition terminateCalls (tr : list Event) : list (string * TerminateRunPolicy) :=
  omap (fun e => match e with Terminate r p => Some (r, p) | _ => None end) tr.

Definition onCompleteCalls (tr : list Event) : list TerminationState :=
  omap (fun e => match e with OnComplete t => Some t | _ => None end) tr.

(** The dialog state once React has applied every action [mutate]
    dispatched, starting from the reducer's state [current] at the click. *)
Definition stateAfterMutate backend (state current : TerminationDialogState)
    : TerminationDialogState :=
  reduce current (dispatched (fst (mutate backend state))).

(** ** Retention of tick records

    dagster-instance.mdx documents the [retention.*.purge_after_days] key;
    the sweeper that reads it is not among the sources. *)

Module Retention.

(** Modelled from the spec: the tick types a retention policy ranges
    over, [{skipped, failure, success}] (section 3, Retention Policy). *)
Inductive TickType :=
| skipped
| failure
| success.

(** Modelled from the spec: the configured value of [purge_after_days],
    either a single integer or an explicit per-type mapping (section 3,
    section 6; the document's two accepted forms). *)
Inductive PurgeAfterDays :=
| AllTypes (days : Z)
| PerType (skipped_days failure_days success_days : Z).

(** Modelled from the spec: a normalized retention policy, one integer
    day threshold per tick type (section 3). *)
Definition RetentionPolicy := TickType -> Z.

(** Modelled from the spec: normalization; a scalar applies to all tick
    types, a mapping gives each type its own threshold (section 3). *)
Definition normalize (c : PurgeAfterDays) : RetentionPolicy :=
  fun t =>
    match c with
    | AllTypes days => days
    | PerType skipped_days failure_days success_days =>
        match t with
        | skipped => skipped_days
        | failure => failure_days
        | success => success_days
        end
    end.

(** Modelled from the spec: the sweeper's decision for one tick (section
    4.6): a tick is deleted when its age exceeds the threshold of its
    type, and a threshold of [-1] exempts the type. *)
Definition purges (p : RetentionPolicy) (t : TickType) (age_days : Z) : bool :=
  if p t =? -1 then false else p t <? age_days.

End Retention.

(** ** The concurrency ledger

    dagster-instance.mdx documents [max_concurrent_runs] and
    [tag_concurrency_limits] of the QueuedRunCoordinator; the coordinator
    and its ledger are not among the sources. *)

Module Ledger.

(** Modelled from the spec: a tagged limit, [{key, value?, limit}]
    (section 3, section 6). *)
Record TagLimit := {
  key : string;
  value : option string;
  limit : Z;
}.

(** Modelled from the spec: the static configuration of the ledger, the
    global limit and the tagged limits (section 6). *)
Record Config := {
  max_concurrent_runs : Z;
  tag_concurrency_limits : list TagLimit;
}.

(** Modelled from the spec: the part of a run the ledger reads, its
    identity and its tags as key/value pairs (section 3). *)
Record Run := {
  run_id : string;
  tags : list (string * string);
}.

(** Modelled from the spec: the ledger tracks active run counts globally
    and per tag key/value (section 2). *)
Record State := {
  global : Z;
  counters : gmap (string * option string) Z;
}.

(** Modelled from the spec: a tagged limit applies to a run that carries
    a tag with the limit's key and, when the limit names a value, that
    value (section 3; section 8, the [database=redshift] example). *)
Definition applies (r : Run) (l : TagLimit) : bool :=
  existsb (fun t : string * string =>
             String.eqb (fst t) (key l) &&
             match value l with
             | Some v => String.eqb (snd t) v
             | None => true
             end) (tags r).

(** Modelled from the spec: the limits applicable to a run (section 3). *)
Definition applicable (cfg : Config) (r : Run) : list TagLimit :=
  List.filter (applies r) (tag_concurrency_limits cfg).

(** Modelled from the spec: the current count under a tagged limit, zero
    when no run was ever counted under it (section 4.1, [snapshot]). *)
Definition count (st : State) (l : TagLimit) : Z :=
  default 0 (counters st !! (key l, value l)).

(** Modelled from the spec: the check of [reserve], evaluated on every
    applicable limit and on the global limit before any counter is
    written (section 4.1). *)
Definition fits (cfg : Config) (st : State) (r : Run) : bool :=
  (global st + 1 <=? max_concurrent_runs cfg) &&
  forallb (fun l => count st l + 1 <=? limit l) (applicable cfg r).

(** Modelled from the spec: the commit of [reserve], incrementing the
    global counter and the counter of every applicable limit (section
    4.1).  Each new value is computed from the state before the call. *)
Definition commit (cfg : Config) (st : State) (r : Run) : State :=
  {| global := global st + 1;
     counters := foldr (fun l m => <[(key l, value l) := count st l + 1]> m)
                       (counters st) (applicable cfg r) |}.

(** Modelled from the spec: [reserve(run) -> bool] with the resulting
    ledger state; check-then-commit as one step (section 4.1). *)
Definition reserve (cfg : Config) (st : State) (r : Run) : bool * State :=
  if fits cfg st r then (true, commit cfg st r) else (false, st).

End Ledger.

(** ** Vocabulary of the statements *)

Definition isReset (action : TerminationDialogAction) : bool :=
  match action with
  | reset _ => true
  | _ => false
  end.

(** The two actions that record the outcome of one run. *)
Definition isOutcome (action : TerminationDialogAction) : bool :=
  match action with
  | termination_success | termination_error _ _ => true
  | _ => false
  end.

(** The action that records the awaited [data] of the run [runId]. *)
Definition outcomeAction (data : option TerminateMutation) (runId : string)
    : TerminationDialogAction :=
  if isTerminateRunSuccess data
  then termination_success
  else termination_error runId (payload data).

(** The [data] a resolved mutation carried. *)
Definition dataOf
    (backend : string -> TerminateRunPolicy -> Completion (option TerminateMutation))
    (runId : string) (terminatePolicy : TerminateRunPolicy)
    : option TerminateMutation :=
  match backend runId terminatePolicy with
  | Returned data => data
  | Thrown _ => None
  end.

(** Whether the mutation for a run id resolves, and whether those of all
    the run ids of a list do. *)
Definition resolves
    (backend : string -> TerminateRunPolicy -> Completion (option TerminateMutation))
    (terminatePolicy : TerminateRunPolicy) (runId : string) : bool :=
  match backend runId terminatePolicy with
  | Returned _ => true
  | Thrown _ => false
  end.

Definition allResolve
    (backend : string -> TerminateRunPolicy -> Completion (option TerminateMutation))
    (terminatePolicy : TerminateRunPolicy) (runList : list string) : bool :=
  forallb (resolves backend terminatePolicy) runList.

(** The events of the runs of a list whose mutations resolved with the
    data [answers]: for each run id in turn, the terminate call and then
    the dispatch of its outcome. *)
Definition batchTrace (answers : string -> TerminateRunPolicy -> option TerminateMutation)
    (terminatePolicy : TerminateRunPolicy) (runList : list string) : list Event :=
  flat_map (fun runId =>
              [Terminate runId terminatePolicy;
               Dispatch (outcomeAction (answers runId terminatePolicy) runId)])
           runList.

(** The errors object after the outcomes of [runList] were recorded in
    turn on top of [m]. *)
Definition recordErrors (answers : string -> TerminateRunPolicy -> option TerminateMutation)
    (terminatePolicy : TerminateRunPolicy) (runList : list string)
    (m : gmap string Error) : gmap string Error :=
  fold_left (fun m runId =>
               if isTerminateRunSuccess (answers runId terminatePolicy)
               then m
               else <[runId := payload (answers runId terminatePolicy)]> m)
            runList m.

(** Sample mutation results.  [null] data is [None]. *)
Definition success_data : option TerminateMutation :=
  Some {| terminatePipelineExecution :=
            {| __typename := "TerminateRunSuccess"; message := None |} |}.

Definition failure_data : option TerminateMutation :=
  Some {| terminatePipelineExecution :=
            {| __typename := "PythonError"; message := Some "Traceback" |} |}.


(** ** What the component derives from its state when it renders *)

(** [const count = Object.keys(state.frozenRuns).length] (line 119). *)
Definition count (state : TerminationDialogState) : nat :=
  length (Object_keys (frozenRuns state)).

(** [showCheckbox] (line 166). *)
Definition showCheckbox (state : TerminationDialogState) : bool :=
  some (fun id => truthy (get (frozenRuns state) id))
       (Object_keys (frozenRuns state)).

(** [canQuicklyClose = state.step !== 'terminating'] (line 332), passed to
    the dialog as [canEscapeKeyClose] and [canOutsideClickClose]. *)
Definition canQuicklyClose (state : TerminationDialogState) : bool :=
  match step state with
  | step_terminating => false
  | _ => true
  end.

(** [completionContent] (lines 284-286): [Object.keys(errors).length] and
    the difference it shows as the number of successes. *)
Definition errorCount (state : TerminationDialogState) : Z :=
  Z.of_nat (size (errors (termination state))).

Definition successCount (state : TerminationDialogState) : Z :=
  completed (termination state) - errorCount state.

(** The buttons of [buttons()] (lines 235-273) by what they do: the text of
    a label is left out, the handler is kept.  The button shown while
    terminating is [disabled] and has no handler. *)
Inductive Button :=
| button_OK
| button_Cancel
| button_Terminate
| button_Terminating
| button_Done.

Inductive Handler :=
| handler_onClose
| handler_mutate.

Definition onClick (b : Button) : option Handler :=
  match b with
  | button_OK | button_Cancel | button_Done => Some handler_onClose
  | button_Terminate => Some handler_mutate
  | button_Terminating => None
  end.

Definition buttons (state : TerminationDialogState) : list Button :=
  match step state with
  | step_initial =>
      if (count state =? 0)%nat
      then [button_OK]
      else [button_Cancel; button_Terminate]
  | step_terminating => [button_Terminating]
  | step_completed => [button_Done]
  end.

(** Whether [progressContent()] (lines 168-233) renders the checkbox whose
    [onChange] is [onToggleForce]: only in step 'initial', with at least
    one run, and when [showCheckbox] holds. *)
Definition checkboxRendered (state : TerminationDialogState) : bool :=
  match step state with
  | step_initial => negb (count state =? 0)%nat && showCheckbox state
  | _ => false
  end.

(** Whether an action can be dispatched in a state.  'toggle-force-terminate'
    is dispatched by [onToggleForce] alone (line 163), which only the
    checkbox calls; the other actions come from the effects and [mutate]. *)
Definition dispatchable (state : TerminationDialogState)
    (action : TerminationDialogAction) : bool :=
  match action with
  | toggle_force_terminate _ => checkboxRendered state
  | _ => true
  end.

(** A sequence of actions each of which can be dispatched in the state the
    previous ones lead to. *)
Fixpoint dispatchableFrom (state : TerminationDialogState)
    (actions : list TerminationDialogAction) : bool :=
  match actions with
  | [] => true
  | action :: rest =>
      dispatchable state action &&
      dispatchableFrom (terminationDialogReducer state action) rest
  end.

(** ** The hooks of the component (lines 107-134)

    One mounted [TerminationDialog] holds the ref [frozenRuns], the reducer
    state, and the dependency arrays of its two effects, which are the
    [isOpen] and [selectedRuns] props of the previous render.  React runs an
    effect after the first render and after every render in which one of
    its dependencies differs, by [Object.is], from the previous render; the
    effects run in the order they are declared.  [useRef] and the
    initializer of [useReducer] read their argument on the first render
    only. *)

Module Hooks.

(** A [selectedRuns] object as a prop: [Object.is] compares the identity of
    the object, here its [address], not its contents. *)
Record Obj := {
  address : nat;
  fields : SelectedRuns;
}.

(** The props the hooks read. *)
Record Props := {
  isOpen : bool;
  selectedRuns : Obj;
}.

Record Instance := {
  frozenRuns_current : Obj;
  state : TerminationDialogState;
  prevProps : Props;
}.

(** The dependencies [[isOpen]] of the first effect differ. *)
Definition isOpenChanged (prev next : Props) : bool :=
  negb (Bool.eqb (isOpen prev) (isOpen next)).

(** The dependencies [[isOpen, selectedRuns]] of the second effect differ. *)
Definition isOpenOrSelectedRunsChanged (prev next : Props) : bool :=
  negb (Bool.eqb (isOpen prev) (isOpen next)) ||
  negb (Nat.eqb (address (selectedRuns prev)) (address (selectedRuns next))).

(** Lines 122-126: if the dialog is open, reset the state to the frozen
    list. *)
Definition resetEffect (props : Props) (inst : Instance) : Instance :=
  if isOpen props
  then {| frozenRuns_current := frozenRuns_current inst;
          state := terminationDialogReducer (state inst)
                     (reset (fields (frozenRuns_current inst)));
          prevProps := prevProps inst |}
  else inst.

(** Lines 130-134: if the dialog is not open, point the ref at the
    [selectedRuns] of this render. *)
Definition freezeEffect (props : Props) (inst : Instance) : Instance :=
  if negb (isOpen props)
  then {| frozenRuns_current := selectedRuns props;
          state := state inst;
          prevProps := prevProps inst |}
  else inst.

(** The first render (lines 111-117) and its effects. *)
Definition mount (props : Props) : Instance :=
  let frozenRuns := selectedRuns props in
  freezeEffect props
    (resetEffect props
       {| frozenRuns_current := frozenRuns;
          state := initializeState (fields frozenRuns);
          prevProps := props |}).

(** A later render with new props, and the effects whose dependencies
    changed. *)
Definition rerender (inst : Instance) (props : Props) : Instance :=
  let afterReset :=
    if isOpenChanged (prevProps inst) props then resetEffect props inst else inst in
  let afterFreeze :=
    if isOpenOrSelectedRunsChanged (prevProps inst) props
    then freezeEffect props afterReset
    else afterReset in
  {| frozenRuns_current := frozenRuns_current afterFreeze;
     state := state afterFreeze;
     prevProps := props |}.

(** What happens to a mounted dialog: the parent renders it with props, or
    one of its handlers dispatches an action. *)
Inductive DialogEvent :=
| Rendered (props : Props)
| Dispatched (action : TerminationDialogAction).

Definition handle (inst : Instance) (ev : DialogEvent) : Instance :=
  match ev with
  | Rendered props => rerender inst props
  | Dispatched action =>
      {| frozenRuns_current := frozenRuns_current inst;
         state := terminationDialogReducer (state inst) action;
         prevProps := prevProps inst |}
  end.

Definition run (props : Props) (evs : list DialogEvent) : Instance :=
  fold_left handle evs (mount props).

(** The [selectedRuns] of the most recent render in which the dialog was
    closed, or of the first render if there was none since. *)
Definition lastClosedSelection (props : Props) (evs : list DialogEvent) : Obj :=
  fold_left (fun sel ev =>
               match ev with
               | Rendered p => if isOpen p then sel else selectedRuns p
               | Dispatched _ => sel
               end)
            evs (selectedRuns props).

(** The objects passed as [selectedRuns] over the life of the dialog. *)
Definition passedObjects (props : Props) (evs : list DialogEvent) : list Obj :=
  selectedRuns props ::
  omap (fun ev => match ev with
                  | Rendered p => Some (selectedRuns p)
                  | Dispatched _ => None
                  end) evs.

(** No object is changed in place: the same object has the same contents
    whenever it is passed. *)
Definition immutable (objs : list Obj) : Prop :=
  forall o1 o2, o1 ∈ objs -> o2 ∈ objs -> address o1 = address o2 ->
                fields o1 = fields o2.

(** The actions the handlers of the dialog dispatch: every action but
    'reset', which only the effect dispatches. *)
Definition fromHandlers (ev : DialogEvent) : bool :=
  match ev with
  | Rendered _ => true
  | Dispatched action => negb (isReset action)
  end.

End Hooks.

(** [completionContent()] (lines 275-330) by its parts: nothing in step
    'initial', the request not to close while terminating, and in step
    'completed' a summary whose success line is rendered when
    [successCount] is not zero and whose error list is rendered when
    [errorCount] is not zero. *)
Inductive CompletionContent :=
| content_null
| content_doNotClose
| content_summary (successLine errorList : bool).

Definition completionContent (state : TerminationDialogState) : CompletionContent :=
  match step state with
  | step_initial => content_null
  | step_terminating => content_doNotClose
  | step_completed =>
      content_summary (negb (successCount state =? 0)) (negb (errorCount state =? 0))
  end.

(** What the hooks keep true after every event. *)
Record hooks_invariant (inst : Hooks.Instance) (sel : Hooks.Obj) (seen : list Hooks.Obj)
    : Prop := {
  inv_ref_seen : Hooks.frozenRuns_current inst ∈ seen;
  inv_sel_seen : sel ∈ seen;
  inv_same_object :
    Hooks.address (Hooks.frozenRuns_current inst) = Hooks.address sel;
  inv_closed :
    Hooks.isOpen (Hooks.prevProps inst) = false ->
    sel = Hooks.selectedRuns (Hooks.prevProps inst);
  inv_open :
    Hooks.isOpen (Hooks.prevProps inst) = true ->
    frozenRuns (Hooks.state inst) = Hooks.fields (Hooks.frozenRuns_current inst);
}.

(** * Properties *)

(** ** The effect monad and the closed form of [mutate] *)

Lemma resolves_dataOf backend terminatePolicy runId :
  resolves backend terminatePolicy runId = true ->
  backend runId terminatePolicy = Returned (dataOf backend runId terminatePolicy).
Proof.
  unfold resolves, dataOf.
  destruct (backend runId terminatePolicy); [reflexivity|discriminate].
Qed.

Lemma allResolve_app backend terminatePolicy l1 l2 :
  allResolve backend terminatePolicy (l1 ++ l2) =
  allResolve backend terminatePolicy l1 && allResolve backend terminatePolicy l2.
Proof. apply forallb_app. Qed.

Lemma allResolve_elem backend terminatePolicy runList runId :
  allResolve backend terminatePolicy runList = true ->
  runId ∈ runList ->
  backend runId terminatePolicy = Returned (dataOf backend runId terminatePolicy).
Proof.
  unfold allResolve. rewrite forallb_forall. intros Hall Hin.
  apply resolves_dataOf, Hall. by apply list_elem_of_In.
Qed.

(** One iteration of the loop: a resolved mutation is followed by the
    dispatch of its outcome, a rejected one ends the iteration at the
    [await]. *)
Lemma mutate_body_eq backend terminatePolicy runId data :
  backend runId terminatePolicy = Returned data ->
  mutate_body backend terminatePolicy runId =
  ([Terminate runId terminatePolicy; Dispatch (outcomeAction data runId)],
   Returned tt).
Proof.
  intros H.
  unfold mutate_body, terminate, outcomeAction, refineToError, dispatch, emit, lift, ret, bind.
  rewrite H. cbn [fst snd app].
  destruct (isTerminateRunSuccess data); reflexivity.
Qed.

Lemma mutate_body_rejected backend terminatePolicy runId what :
  backend runId terminatePolicy = Thrown what ->
  mutate_body backend terminatePolicy runId =
  ([Terminate runId terminatePolicy], Thrown what).
Proof.
  intros H. unfold mutate_body, terminate, emit, lift, bind.
  rewrite H. reflexivity.
Qed.

Lemma mutate_loop_app backend terminatePolicy l1 l2 :
  allResolve backend terminatePolicy l1 = true ->
  mutate_loop backend terminatePolicy (l1 ++ l2) =
  (batchTrace (dataOf backend) terminatePolicy l1 ++
     fst (mutate_loop backend terminatePolicy l2),
   snd (mutate_loop backend terminatePolicy l2)).
Proof.
  induction l1 as [|runId rest IH]; intros Hall.
  - cbn [app batchTrace flat_map]. by destruct (mutate_loop backend terminatePolicy l2).
  - unfold allResolve in Hall. cbn [forallb] in Hall.
    apply andb_true_iff in Hall as [Hr Hall].
    cbn [app mutate_loop].
    rewrite (mutate_body_eq _ _ _ _ (resolves_dataOf _ _ _ Hr)).
    unfold bind. rewrite (IH Hall). reflexivity.
Qed.

Lemma mutate_loop_eq backend terminatePolicy runList :
  allResolve backend terminatePolicy runList = true ->
  mutate_loop backend terminatePolicy runList =
  (batchTrace (dataOf backend) terminatePolicy runList, Returned tt).
Proof.
  intros Hall.
  pose proof (mutate_loop_app backend terminatePolicy runList [] Hall) as H.
  rewrite !app_nil_r in H. exact H.
Qed.

Lemma mutate_loop_rejected backend terminatePolicy l1 runId l2 what :
  allResolve backend terminatePolicy l1 = true ->
  backend runId terminatePolicy = Thrown what ->
  mutate_loop backend terminatePolicy (l1 ++ runId :: l2) =
  (batchTrace (dataOf backend) terminatePolicy l1 ++ [Terminate runId terminatePolicy],
   Thrown what).
Proof.
  intros Hall Hrej. rewrite mutate_loop_app by exact Hall.
  cbn [mutate_loop]. rewrite (mutate_body_rejected _ _ _ _ Hrej). reflexivity.
Qed.

(** Either every mutation of a list resolves, or there is a first one
    that rejects. *)
Lemma first_rejection backend terminatePolicy runList :
  allResolve backend terminatePolicy runList = true \/
  exists l1 runId l2 what,
    runList = l1 ++ runId :: l2 /\
    allResolve backend terminatePolicy l1 = true /\
    backend runId terminatePolicy = Thrown what.
Proof.
  induction runList as [|r rest IH]; [by left|].
  destruct (backend r terminatePolicy) as [data|what] eqn:Er.
  - destruct IH as [Hall|(l1 & runId & l2 & what & -> & Hall & Hrej)].
    + left. unfold allResolve, resolves in *. cbn [forallb]. by rewrite Er.
    + right. exists (r :: l1), runId, l2, what. repeat split; [|exact Hrej].
      unfold allResolve, resolves in *. cbn [forallb]. by rewrite Er.
  - right. exists [], r, rest, what. by repeat split.
Qed.

Lemma rejection_not_allResolve backend terminatePolicy l1 runId l2 what :
  backend runId terminatePolicy = Thrown what ->
  allResolve backend terminatePolicy (l1 ++ runId :: l2) = false.
Proof.
  intros Hrej. rewrite allResolve_app. unfold allResolve at 2, resolves.
  cbn [forallb]. rewrite Hrej. apply andb_false_r.
Qed.

(** [mutate] when every mutation resolves, and when one rejects. *)
Lemma mutate_eq backend state :
  allResolve backend (policy state) (Object_keys (frozenRuns state)) = true ->
  mutate backend state =
  (Dispatch start ::
     batchTrace (dataOf backend) (policy state) (Object_keys (frozenRuns state)) ++
     [Dispatch complete; OnComplete (termination state)],
   Returned tt).
Proof.
  intros Hall. unfold mutate. rewrite mutate_loop_eq by exact Hall.
  unfold dispatch, onComplete, emit, bind. cbn [fst snd app]. reflexivity.
Qed.

Lemma mutate_rejected backend state l1 runId l2 what :
  Object_keys (frozenRuns state) = l1 ++ runId :: l2 ->
  allResolve backend (policy state) l1 = true ->
  backend runId (policy state) = Thrown what ->
  mutate backend state =
  (Dispatch start ::
     batchTrace (dataOf backend) (policy state) l1 ++
     [Terminate runId (policy state)],
   Thrown what).
Proof.
  intros Hk Hall Hrej. unfold mutate.
  rewrite Hk, (mutate_loop_rejected _ _ _ _ _ _ Hall Hrej).
  unfold dispatch, emit, bind. cbn [fst snd app]. reflexivity.
Qed.

Lemma dispatched_batchTrace answers terminatePolicy runList :
  dispatched (batchTrace answers terminatePolicy runList) =
  map (fun runId => outcomeAction (answers runId terminatePolicy) runId) runList.
Proof.
  induction runList as [|runId rest IH]; [reflexivity|].
  cbn. f_equal. exact IH.
Qed.

Lemma terminateCalls_batchTrace answers terminatePolicy runList :
  terminateCalls (batchTrace answers terminatePolicy runList) =
  map (fun runId => (runId, terminatePolicy)) runList.
Proof.
  induction runList as [|runId rest IH]; [reflexivity|].
  cbn. f_equal. exact IH.
Qed.

Lemma dispatched_cons_app e tr1 tr2 :
  dispatched (e :: tr1 ++ tr2) = dispatched [e] ++ dispatched tr1 ++ dispatched tr2.
Proof.
  change (e :: tr1 ++ tr2) with ([e] ++ tr1 ++ tr2).
  unfold dispatched. by rewrite !omap_app.
Qed.

Lemma terminateCalls_cons_app e tr1 tr2 :
  terminateCalls (e :: tr1 ++ tr2) =
  terminateCalls [e] ++ terminateCalls tr1 ++ terminateCalls tr2.
Proof.
  change (e :: tr1 ++ tr2) with ([e] ++ tr1 ++ tr2).
  unfold terminateCalls. by rewrite !omap_app.
Qed.

Lemma dispatched_mutate backend state :
  allResolve backend (policy state) (Object_keys (frozenRuns state)) = true ->
  dispatched (fst (mutate backend state)) =
  start ::
    map (fun runId => outcomeAction (dataOf backend runId (policy state)) runId)
        (Object_keys (frozenRuns state)) ++ [complete].
Proof.
  intros Hall. rewrite mutate_eq by exact Hall. cbn [fst].
  rewrite dispatched_cons_app, dispatched_batchTrace. reflexivity.
Qed.

Lemma dispatched_mutate_rejected backend state l1 runId l2 what :
  Object_keys (frozenRuns state) = l1 ++ runId :: l2 ->
  allResolve backend (policy state) l1 = true ->
  backend runId (policy state) = Thrown what ->
  dispatched (fst (mutate backend state)) =
  start :: map (fun runId => outcomeAction (dataOf backend runId (policy state)) runId) l1.
Proof.
  intros Hk Hall Hrej. rewrite (mutate_rejected _ _ _ _ _ _ Hk Hall Hrej). cbn [fst].
  rewrite dispatched_cons_app, dispatched_batchTrace. cbn. by rewrite app_nil_r.
Qed.

Lemma terminateCalls_mutate backend state :
  allResolve backend (policy state) (Object_keys (frozenRuns state)) = true ->
  terminateCalls (fst (mutate backend state)) =
  map (fun runId => (runId, policy state)) (Object_keys (frozenRuns state)).
Proof.
  intros Hall. rewrite mutate_eq by exact Hall. cbn [fst].
  rewrite terminateCalls_cons_app, terminateCalls_batchTrace. cbn. by rewrite app_nil_r.
Qed.

(** Whether or not the batch is cut short, the terminate calls are a
    leading part of the frozen run ids, each with the policy of the
    batch. *)
Lemma terminateCalls_prefix backend state :
  terminateCalls (fst (mutate backend state)) `prefix_of`
  map (fun runId => (runId, policy state)) (Object_keys (frozenRuns state)).
Proof.
  destruct (first_rejection backend (policy state) (Object_keys (frozenRuns state)))
    as [Hall|(l1 & runId & l2 & what & Hk & Hall & Hrej)].
  - by rewrite terminateCalls_mutate.
  - rewrite (mutate_rejected _ _ _ _ _ _ Hk Hall Hrej), Hk. cbn [fst].
    rewrite terminateCalls_cons_app, terminateCalls_batchTrace.
    exists (map (fun r => (r, policy state)) l2).
    rewrite map_app. cbn. by rewrite <- app_assoc.
Qed.

Lemma onCompleteCalls_batchTrace answers terminatePolicy runList :
  onCompleteCalls (batchTrace answers terminatePolicy runList) = [].
Proof.
  induction runList as [|runId rest IH]; [reflexivity|]. cbn. exact IH.
Qed.

Lemma onCompleteCalls_mutate backend state :
  allResolve backend (policy state) (Object_keys (frozenRuns state)) = true ->
  onCompleteCalls (fst (mutate backend state)) = [termination state].
Proof.
  intros Hall. rewrite mutate_eq by exact Hall. cbn [fst].
  change (Dispatch start :: ?a ++ ?b) with ([Dispatch start] ++ a ++ b).
  unfold onCompleteCalls. rewrite !omap_app.
  fold (onCompleteCalls (batchTrace (dataOf backend) (policy state)
                           (Object_keys (frozenRuns state)))).
  rewrite onCompleteCalls_batchTrace. reflexivity.
Qed.

(** ** The reducer over a sequence of actions *)

Lemma reduce_cons s action actions :
  reduce s (action :: actions) = reduce (terminationDialogReducer s action) actions.
Proof. reflexivity. Qed.

Lemma reduce_app s xs ys : reduce s (xs ++ ys) = reduce (reduce s xs) ys.
Proof. unfold reduce. apply fold_left_app. Qed.

Lemma reducer_completed_step s action :
  isReset action = false ->
  completed (termination (terminationDialogReducer s action)) =
  completed (termination s) + (if isOutcome action then 1 else 0).
Proof.
  destruct action; cbn; intros H; try discriminate; lia.
Qed.

Lemma reducer_frozenRuns_step s action :
  isReset action = false ->
  frozenRuns (terminationDialogReducer s action) = frozenRuns s.
Proof.
  destruct action; cbn; intros H; try discriminate; reflexivity.
Qed.

Lemma recordErrors_cons answers terminatePolicy r rest m :
  recordErrors answers terminatePolicy (r :: rest) m =
  recordErrors answers terminatePolicy rest
    (if isTerminateRunSuccess (answers r terminatePolicy)
     then m
     else <[r := payload (answers r terminatePolicy)]> m).
Proof. reflexivity. Qed.

(** Recording the outcomes of a list of runs, from any state. *)
Lemma reduce_outcomes answers terminatePolicy runList : forall s,
  let s' := reduce s (map (fun runId =>
                             outcomeAction (answers runId terminatePolicy) runId)
                          runList) in
  completed (termination s') = completed (termination s) + Z.of_nat (length runList) /\
  errors (termination s') = recordErrors answers terminatePolicy runList (errors (termination s)) /\
  mustForce s' = mustForce s /\
  frozenRuns s' = frozenRuns s.
Proof.
  induction runList as [|runId rest IH]; intros s.
  - cbn. repeat split; lia.
  - cbn zeta. cbn [map]. rewrite reduce_cons.
    destruct (IH (terminationDialogReducer s
                    (outcomeAction (answers runId terminatePolicy) runId)))
      as (Hc & He & Hm & Hf).
    rewrite Hc, He, Hm, Hf, recordErrors_cons. unfold outcomeAction.
    destruct (isTerminateRunSuccess (answers runId terminatePolicy)); cbn;
      repeat split; lia.
Qed.

Lemma recordErrors_success answers terminatePolicy runId runList : forall m,
  isTerminateRunSuccess (answers runId terminatePolicy) = true ->
  recordErrors answers terminatePolicy runList m !! runId = m !! runId.
Proof.
  induction runList as [|r rest IH]; intros m Hs; [reflexivity|].
  rewrite recordErrors_cons, IH by exact Hs.
  destruct (isTerminateRunSuccess (answers r terminatePolicy)) eqn:Er; [reflexivity|].
  apply lookup_insert_ne. intros ->. congruence.
Qed.

Lemma recordErrors_absent answers terminatePolicy runId runList : forall m,
  runId ∉ runList ->
  recordErrors answers terminatePolicy runList m !! runId = m !! runId.
Proof.
  induction runList as [|r rest IH]; intros m Hn; [reflexivity|].
  apply not_elem_of_cons in Hn as [Hne Hn].
  rewrite recordErrors_cons, IH by exact Hn.
  destruct (isTerminateRunSuccess (answers r terminatePolicy)); [reflexivity|].
  apply lookup_insert_ne. congruence.
Qed.

Lemma recordErrors_failure answers terminatePolicy runId runList : forall m,
  runId ∈ runList ->
  isTerminateRunSuccess (answers runId terminatePolicy) = false ->
  recordErrors answers terminatePolicy runList m !! runId =
  Some (payload (answers runId terminatePolicy)).
Proof.
  induction runList as [|r rest IH]; intros m Hin Hf.
  - by apply elem_of_nil in Hin.
  - rewrite recordErrors_cons.
    destruct (decide (runId ∈ rest)) as [Hrest|Hrest].
    + apply IH; assumption.
    + apply elem_of_cons in Hin as [Heq|Hin]; [|contradiction].
      subst r. rewrite Hf, recordErrors_absent by exact Hrest.
      apply lookup_insert_eq.
Qed.

(** The errors object of a batch holds exactly the runs whose result was
    not TerminateRunSuccess, each with its payload. *)
Lemma recordErrors_lookup answers terminatePolicy runList m runId :
  recordErrors answers terminatePolicy runList m !! runId =
  if decide (runId ∈ runList /\
             isTerminateRunSuccess (answers runId terminatePolicy) = false)
  then Some (payload (answers runId terminatePolicy))
  else m !! runId.
Proof.
  case_decide as H.
  - destruct H as [Hin Hf]. by apply recordErrors_failure.
  - destruct (isTerminateRunSuccess (answers runId terminatePolicy)) eqn:E.
    + by apply recordErrors_success.
    + apply recordErrors_absent. intros Hin. apply H. by split.
Qed.

(** The dialog state after a whole batch, when every mutation resolves. *)
Lemma stateAfterMutate_eq backend state current :
  allResolve backend (policy state) (Object_keys (frozenRuns state)) = true ->
  let n := Z.of_nat (length (Object_keys (frozenRuns state))) in
  let final := stateAfterMutate backend state current in
  completed (termination final) = completed (termination current) + n /\
  errors (termination final) =
    recordErrors (dataOf backend) (policy state) (Object_keys (frozenRuns state))
                 (errors (termination current)) /\
  step final = step_completed.
Proof.
  intros Hall. cbn zeta. unfold stateAfterMutate.
  rewrite dispatched_mutate by exact Hall.
  rewrite reduce_cons, reduce_app.
  destruct (reduce_outcomes (dataOf backend) (policy state) (Object_keys (frozenRuns state))
              (terminationDialogReducer current start)) as (Hc & He & _ & _).
  set (s1 := reduce (terminationDialogReducer current start) _) in *.
  change (reduce s1 [complete]) with (terminationDialogReducer s1 complete).
  cbn [terminationDialogReducer termination step].
  rewrite Hc, He. cbn. repeat split.
Qed.

(** ** initializeState *)

Lemma get_of_key selectedRuns id :
  id ∈ Object_keys selectedRuns -> is_Some (get selectedRuns id).
Proof.
  induction selectedRuns as [|[k v] rest IH]; cbn; intros Hin.
  - by apply elem_of_nil in Hin.
  - destruct (String.eqb k id) eqn:E; [eauto|].
    apply elem_of_cons in Hin as [->|Hin]; [|auto].
    rewrite String.eqb_refl in E. discriminate.
Qed.

(** C1, as stated, fails: with one run that can be terminated cooperatively
    and one that cannot, a run id maps to false and yet the initial state
    has [mustForce = false]. *)
Lemma initializeState_mixed_selection_not_forced :
  let selectedRuns := [("run-a", true); ("run-b", false)]%string in
  get selectedRuns "run-b" = Some false /\
  mustForce (initializeState selectedRuns) = false.
Proof. split; reflexivity. Qed.

(** C1, amended: the initial state has [mustForce = true] exactly when every
    selected run id maps to false, that is when no selected run has
    [canTerminate]; one run that maps to true is enough for
    [mustForce = false]. *)
Theorem initializeState_mustForce selectedRuns :
  mustForce (initializeState selectedRuns) = true <->
  forall id, id ∈ Object_keys selectedRuns -> get selectedRuns id = Some false.
Proof.
  cbn [initializeState mustForce]. unfold some.
  rewrite negb_true_iff, <- not_true_iff_false, existsb_exists. split.
  - intros Hno id Hin.
    destruct (get_of_key selectedRuns id Hin) as [b Hb].
    destruct b; [|exact Hb].
    exfalso. apply Hno. exists id. split.
    + by apply list_elem_of_In.
    + by rewrite Hb.
  - intros Hall (id & Hin & Ht).
    apply list_elem_of_In in Hin. rewrite (Hall id Hin) in Ht. discriminate.
Qed.

Lemma initializeState_mustForce_witness :
  mustForce (initializeState [("run-a", false); ("run-b", false)]%string) = true.
Proof.
  apply (proj2 (initializeState_mustForce [("run-a", false); ("run-b", false)]%string)).
  intros id Hin. cbn in Hin.
  apply elem_of_cons in Hin as [->|Hin]; [reflexivity|].
  apply elem_of_cons in Hin as [->|Hin]; [reflexivity|].
  by apply elem_of_nil in Hin.
Defined.

(** ** terminationDialogReducer *)

(** C6: along any sequence of actions without 'reset', every step adds
    exactly one to [termination.completed] when the action is
    'termination-success' or 'termination-error' and nothing otherwise, so
    the counter after any prefix is at most the counter at the end. *)
Theorem completed_never_decreases s actions :
  Forall (fun action => isReset action = false) actions ->
  (forall pre action post, actions = pre ++ action :: post ->
     completed (termination (reduce s (pre ++ [action]))) =
     completed (termination (reduce s pre)) + (if isOutcome action then 1 else 0)) /\
  (forall pre post, actions = pre ++ post ->
     completed (termination (reduce s pre)) <=
     completed (termination (reduce s actions))).
Proof.
  intros Hall. split.
  - intros pre action post ->. rewrite reduce_app.
    apply Forall_app in Hall as [_ Hall]. apply Forall_cons in Hall as [Ha _].
    apply reducer_completed_step, Ha.
  - intros pre post ->. rewrite reduce_app.
    apply Forall_app in Hall as [_ Hall].
    generalize (reduce s pre). clear pre.
    induction post as [|action post IH]; intros s0; [cbn; lia|].
    apply Forall_cons in Hall as [Ha Hall].
    rewrite reduce_cons.
    specialize (IH Hall (terminationDialogReducer s0 action)).
    rewrite (reducer_completed_step s0 action Ha) in IH.
    destruct (isOutcome action); lia.
Qed.

Lemma completed_never_decreases_witness :
  let s := initializeState [("run-a", true)]%string in
  completed (termination (reduce s [start; termination_success])) =
  completed (termination (reduce s [start])) + 1 /\
  completed (termination (reduce s [start])) <=
  completed (termination (reduce s [start; termination_success; complete])).
Proof.
  assert (Hall : Forall (fun action => isReset action = false)
                   [start; termination_success; complete]).
  { repeat constructor. }
  split.
  - exact (proj1 (completed_never_decreases (initializeState [("run-a", true)]%string)
                    [start; termination_success; complete] Hall)
             [start] termination_success [complete] eq_refl).
  - exact (proj2 (completed_never_decreases (initializeState [("run-a", true)]%string)
                    [start; termination_success; complete] Hall)
             [start] [termination_success; complete] eq_refl).
Defined.

(** C9: every action other than 'reset' leaves [frozenRuns] as it was, and
    so does every sequence of such actions. *)
Theorem frozenRuns_unchanged s :
  (forall action, isReset action = false ->
     frozenRuns (terminationDialogReducer s action) = frozenRuns s) /\
  (forall actions, Forall (fun action => isReset action = false) actions ->
     frozenRuns (reduce s actions) = frozenRuns s).
Proof.
  split.
  - intros action. apply reducer_frozenRuns_step.
  - intros actions. revert s.
    induction actions as [|action actions IH]; intros s Hall; [reflexivity|].
    apply Forall_cons in Hall as [Ha Hall].
    rewrite reduce_cons, IH by exact Hall. apply reducer_frozenRuns_step, Ha.
Qed.

Lemma frozenRuns_unchanged_witness :
  let s := initializeState [("run-a", true); ("run-b", false)]%string in
  frozenRuns (terminationDialogReducer s (termination_error "run-b" None)) = frozenRuns s /\
  frozenRuns (reduce s [toggle_force_terminate true; start; termination_success;
                        termination_error "run-b" None; complete]) = frozenRuns s.
Proof.
  split.
  - apply (proj1 (frozenRuns_unchanged _)). reflexivity.
  - apply (proj2 (frozenRuns_unchanged _)). repeat constructor.
Defined.

(** ** refineToError as called from mutate *)

(** C10: when the typename is not TerminateRunSuccess, [refineToError]
    returns the payload, which is [undefined] when the mutation returned no
    data; [mutate] calls it only then, so neither one iteration of the loop
    nor [mutate] as a whole ever completes by the exception: an iteration
    whose mutation resolves returns normally, [mutate] returns normally
    when every mutation resolves, and what [mutate] throws otherwise is
    what a rejected mutation threw. *)
Theorem refineToError_never_throws_in_mutate backend state :
  (forall data, isTerminateRunSuccess data = false ->
     refineToError data = Returned (payload data)) /\
  refineToError None = Returned None /\
  (forall terminatePolicy runId data,
     backend runId terminatePolicy = Returned data ->
     snd (mutate_body backend terminatePolicy runId) = Returned tt) /\
  (allResolve backend (policy state) (Object_keys (frozenRuns state)) = true ->
     snd (mutate backend state) = Returned tt) /\
  (forall what,
     snd (mutate backend state) = Thrown what ->
     exists runId,
       runId ∈ Object_keys (frozenRuns state) /\
       backend runId (policy state) = Thrown what).
Proof.
  split; [|split; [|split; [|split]]].
  - intros data H. unfold refineToError. by rewrite H.
  - reflexivity.
  - intros terminatePolicy runId data H. by rewrite (mutate_body_eq _ _ _ _ H).
  - intros Hall. by rewrite mutate_eq.
  - intros what Hthrown.
    destruct (first_rejection backend (policy state) (Object_keys (frozenRuns state)))
      as [Hall|(l1 & runId & l2 & what' & Hk & Hall & Hrej)].
    + rewrite mutate_eq in Hthrown by exact Hall. discriminate.
    + rewrite (mutate_rejected _ _ _ _ _ _ Hk Hall Hrej) in Hthrown.
      cbn [snd] in Hthrown. injection Hthrown as <-.
      exists runId. split; [|exact Hrej].
      rewrite Hk. apply elem_of_app. right. apply elem_of_cons. by left.
Qed.

Lemma refineToError_never_throws_in_mutate_witness :
  let failure :=
    {| __typename := "PythonError"; message := Some "Traceback" |}%string in
  let state := initializeState [("run-1", true)]%string in
  let backend := fun (_ : string) (_ : TerminateRunPolicy) =>
                   Returned (Some {| terminatePipelineExecution := failure |}) in
  refineToError (Some {| terminatePipelineExecution := failure |}) =
    Returned (Some failure) /\
  snd (mutate_body backend SAFE_TERMINATE "run-1") = Returned tt /\
  snd (mutate backend state) = Returned tt.
Proof.
  intros failure state backend.
  destruct (refineToError_never_throws_in_mutate backend state)
    as (H1 & _ & H3 & H4 & _).
  split; [|split].
  - apply H1. reflexivity.
  - apply (H3 SAFE_TERMINATE "run-1"%string
              (Some {| terminatePipelineExecution := failure |})).
    reflexivity.
  - apply H4. reflexivity.
Defined.

(** ** mutate *)

(** C4: [mutate] dispatches 'start', then for each frozen run id in the
    order of [Object.keys] calls terminate and dispatches that run's
    outcome before the next call, then dispatches 'complete' and calls
    [onComplete]; every call carries the same policy, SAFE_TERMINATE when
    [mustForce] is false and MARK_AS_CANCELED_IMMEDIATELY when it is
    true.  The trace is the one of a batch whose mutations all resolve;
    order and policy of the calls hold of every batch, also one cut short
    by a rejected mutation. *)
Theorem mutate_sequential_single_policy backend state :
  let runList := Object_keys (frozenRuns state) in
  let batchPolicy :=
    if mustForce state then MARK_AS_CANCELED_IMMEDIATELY else SAFE_TERMINATE in
  (allResolve backend batchPolicy runList = true ->
   fst (mutate backend state) =
     Dispatch start ::
       flat_map (fun runId =>
                   [Terminate runId batchPolicy;
                    Dispatch (outcomeAction (dataOf backend runId batchPolicy) runId)])
                runList ++
       [Dispatch complete; OnComplete (termination state)] /\
   terminateCalls (fst (mutate backend state)) =
     map (fun runId => (runId, batchPolicy)) runList) /\
  terminateCalls (fst (mutate backend state)) `prefix_of`
    map (fun runId => (runId, batchPolicy)) runList /\
  (forall r1 p1 r2 p2,
     (r1, p1) ∈ terminateCalls (fst (mutate backend state)) ->
     (r2, p2) ∈ terminateCalls (fst (mutate backend state)) ->
     p1 = p2).
Proof.
  cbn zeta. fold (policy state). split; [|split].
  - intros Hall. rewrite terminateCalls_mutate, mutate_eq by exact Hall. by split.
  - apply terminateCalls_prefix.
  - intros r1 p1 r2 p2 H1 H2.
    destruct (terminateCalls_prefix backend state) as [k Hk].
    assert (Hin : forall r p, (r, p) ∈ terminateCalls (fst (mutate backend state)) ->
                              p = policy state).
    { intros r p H.
      assert (H' : (r, p) ∈ map (fun runId => (runId, policy state))
                                (Object_keys (frozenRuns state))).
      { rewrite Hk. apply elem_of_app. by left. }
      apply list_elem_of_fmap in H' as (x & E & _). congruence. }
    rewrite (Hin r1 p1 H1), (Hin r2 p2 H2). reflexivity.
Qed.

Lemma mutate_sequential_single_policy_witness :
  let state := reduce (initializeState [("run-1", true); ("run-2", true)]%string)
                      [toggle_force_terminate true] in
  let backend := fun (runId : string) (_ : TerminateRunPolicy) =>
                   if String.eqb runId "run-1" then Returned failure_data
                   else Returned success_data in
  fst (mutate backend state) =
    [Dispatch start;
     Terminate "run-1" MARK_AS_CANCELED_IMMEDIATELY;
     Dispatch (termination_error "run-1" (payload failure_data));
     Terminate "run-2" MARK_AS_CANCELED_IMMEDIATELY;
     Dispatch termination_success;
     Dispatch complete;
     OnComplete (termination state)] /\
  terminateCalls (fst (mutate backend state)) =
    [("run-1"%string, MARK_AS_CANCELED_IMMEDIATELY);
     ("run-2"%string, MARK_AS_CANCELED_IMMEDIATELY)].
Proof.
  intros state backend.
  exact (proj1 (mutate_sequential_single_policy backend state) eq_refl).
Defined.

(** C2, on the code: for a batch of two runs, the first terminated and the
    second answered with no data, the reducer ends with [completed = 2] and
    the second run in [errors], but [onComplete] is called with the
    [termination] of the state [mutate] closed over, [completed = 0] and
    no errors. *)
Theorem mutate_onComplete_receives_captured_termination :
  let state := initializeState [("run-1", true); ("run-2", false)]%string in
  let backend := fun (runId : string) (_ : TerminateRunPolicy) =>
                   Returned (if String.eqb runId "run-1" then success_data else None) in
  onCompleteCalls (fst (mutate backend state)) = [ {| completed := 0; errors := ∅ |} ] /\
  completed (termination (stateAfterMutate backend state state)) = 2 /\
  errors (termination (stateAfterMutate backend state state)) = {[ "run-2"%string := None ]}.
Proof.
  cbn zeta. split; [|split].
  - rewrite onCompleteCalls_mutate; reflexivity.
  - reflexivity.
  - reflexivity.
Qed.







(** ** Retention *)

(** C7: a policy is obtained from a scalar, which then applies to every
    tick type, or from a per-type mapping; a threshold of -1 never purges;
    and under [{skipped: 7, failure: 30, success: -1}] a skipped tick aged
    8 days is purged, a failure tick aged 10 days is kept, and a success
    tick is kept at every age. *)
Theorem retention_policy_normalized_and_applied :
  (forall days t, Retention.normalize (Retention.AllTypes days) t = days) /\
  (forall a b c,
     Retention.normalize (Retention.PerType a b c) Retention.skipped = a /\
     Retention.normalize (Retention.PerType a b c) Retention.failure = b /\
     Retention.normalize (Retention.PerType a b c) Retention.success = c) /\
  (forall c t age_days,
     Retention.normalize c t = -1 ->
     Retention.purges (Retention.normalize c) t age_days = false) /\
  (let p := Retention.normalize (Retention.PerType 7 30 (-1)) in
   Retention.purges p Retention.skipped 8 = true /\
   Retention.purges p Retention.failure 10 = false /\
   forall age_days, Retention.purges p Retention.success age_days = false).
Proof.
  split; [reflexivity|]. split; [intros; repeat split|]. split.
  - intros c t age_days H. unfold Retention.purges. by rewrite H.
  - cbn zeta. repeat split.
Qed.

Lemma retention_policy_normalized_and_applied_witness :
  Retention.purges (Retention.normalize (Retention.AllTypes (-1)))
                   Retention.failure 100000 = false.
Proof.
  apply (proj1 (proj2 (proj2 retention_policy_normalized_and_applied))).
  reflexivity.
Defined.

(** ** Concurrency ledger *)

Lemma commit_counter (st : Ledger.State) (ls : list Ledger.TagLimit) (k : string * option string) :
  foldr (fun l m => <[(Ledger.key l, Ledger.value l) := Ledger.count st l + 1]> m)
        (Ledger.counters st) ls !! k =
  if decide (k ∈ map (fun l => (Ledger.key l, Ledger.value l)) ls)
  then Some (default 0 (Ledger.counters st !! k) + 1)
  else Ledger.counters st !! k.
Proof.
  induction ls as [|l ls IH]; cbn [foldr map].
  - rewrite decide_False; [reflexivity|]. apply not_elem_of_nil.
  - destruct (decide (k = (Ledger.key l, Ledger.value l))) as [->|Hne].
    + rewrite lookup_insert_eq, decide_True; [reflexivity|]. apply elem_of_cons; auto.
    + rewrite lookup_insert_ne by congruence. rewrite IH.
      destruct (decide (k ∈ map _ ls)) as [Hin|Hnin].
      * rewrite decide_True; [reflexivity|]. apply elem_of_cons; auto.
      * rewrite decide_False; [reflexivity|].
        intros [?|?]%elem_of_cons; contradiction.
Qed.

(** C8: [reserve] answers true only when the global counter and the counter
    of every limit applicable to the run stay within their limits after the
    increment, in which case exactly these incremented values are stored;
    when it answers false the ledger state is the one it was given. *)
Theorem reserve_check_then_commit cfg st r :
  (fst (Ledger.reserve cfg st r) = true ->
     Ledger.global st + 1 <= Ledger.max_concurrent_runs cfg /\
     Ledger.global (snd (Ledger.reserve cfg st r)) = Ledger.global st + 1 /\
     (forall l, l ∈ Ledger.tag_concurrency_limits cfg -> Ledger.applies r l = true ->
        Ledger.count st l + 1 <= Ledger.limit l /\
        Ledger.count (snd (Ledger.reserve cfg st r)) l = Ledger.count st l + 1)) /\
  (fst (Ledger.reserve cfg st r) = false ->
     snd (Ledger.reserve cfg st r) = st).
Proof.
  unfold Ledger.reserve. destruct (Ledger.fits cfg st r) eqn:Hfits; cbn [fst snd].
  - split; [intros _|discriminate].
    unfold Ledger.fits in Hfits. apply andb_true_iff in Hfits as [Hg Hl].
    apply Z.leb_le in Hg. rewrite forallb_forall in Hl.
    split; [exact Hg|]. split; [reflexivity|].
    intros l Hin Happ.
    assert (Hla : In l (Ledger.applicable cfg r)).
    { apply filter_In. split; [by apply list_elem_of_In | exact Happ]. }
    split.
    + apply Z.leb_le, Hl, Hla.
    + unfold Ledger.count at 1. cbn [Ledger.commit Ledger.counters].
      rewrite commit_counter, decide_True; [reflexivity|].
      apply list_elem_of_In, in_map_iff. eauto.
  - split; [discriminate|reflexivity].
Qed.

Lemma reserve_check_then_commit_witness :
  let redshift := {| Ledger.key := "database"; Ledger.value := Some "redshift";
                     Ledger.limit := 4 |}%string in
  let cfg := {| Ledger.max_concurrent_runs := 25;
                Ledger.tag_concurrency_limits := [redshift] |} in
  let r := {| Ledger.run_id := "run-5";
              Ledger.tags := [("database", "redshift")]%string |} in
  let below := {| Ledger.global := 3;
                  Ledger.counters := {[ ("database"%string, Some "redshift"%string) := 3 ]} |} in
  let full := {| Ledger.global := 4;
                 Ledger.counters := {[ ("database"%string, Some "redshift"%string) := 4 ]} |} in
  Ledger.count (snd (Ledger.reserve cfg below r)) redshift = 4 /\
  snd (Ledger.reserve cfg full r) = full.
Proof.
  intros redshift cfg r below full. split.
  - destruct (proj1 (reserve_check_then_commit cfg below r) eq_refl) as (_ & _ & Hl).
    refine (proj2 (Hl redshift _ eq_refl)).
    apply list_elem_of_singleton. reflexivity.
  - exact (proj2 (reserve_check_then_commit cfg full r) eq_refl).
Defined.

(** * Further properties of the dialog *)

(** ** Invariants of the reducer *)

Lemma reducer_errors_bounded s action :
  Z.of_nat (size (errors (termination s))) <= completed (termination s) ->
  Z.of_nat (size (errors (termination (terminationDialogReducer s action)))) <=
  completed (termination (terminationDialogReducer s action)).
Proof.
  intros H.
  destruct action;
    cbn [terminationDialogReducer initializeState termination completed errors];
    try lia.
  - rewrite map_size_empty. lia.
  - destruct (errors (termination s) !! id) as [e|] eqn:E.
    + rewrite map_size_insert_Some by eauto. lia.
    + rewrite map_size_insert_None by exact E. lia.
Qed.

(** X1: in every state the dialog can reach from its initial state, by any
    actions, the number of keys of [errors] is at most [completed]; the
    number of successes that [completionContent] shows is never negative. *)
Theorem successCount_never_negative selectedRuns actions :
  let s := reduce (initializeState selectedRuns) actions in
  0 <= errorCount s <= completed (termination s) /\ 0 <= successCount s.
Proof.
  cbn zeta.
  assert (Z.of_nat (size (errors (termination
            (reduce (initializeState selectedRuns) actions)))) <=
          completed (termination (reduce (initializeState selectedRuns) actions)))
    as Hinv.
  { assert (H0 : Z.of_nat (size (errors (termination (initializeState selectedRuns)))) <=
                 completed (termination (initializeState selectedRuns))).
    { cbn. rewrite map_size_empty. lia. }
    revert H0. generalize (initializeState selectedRuns).
    induction actions as [|action actions IH]; intros s H; [exact H|].
    rewrite reduce_cons. apply IH, reducer_errors_bounded, H. }
  unfold successCount, errorCount.
  pose proof (Nat2Z.is_nonneg (size (errors (termination
            (reduce (initializeState selectedRuns) actions))))).
  lia.
Qed.

Lemma reducer_initial_fresh s action :
  (step s = step_initial -> termination s = {| completed := 0; errors := ∅ |}) ->
  step (terminationDialogReducer s action) = step_initial ->
  termination (terminationDialogReducer s action) = {| completed := 0; errors := ∅ |}.
Proof.
  destruct action; cbn; intros H Hs; try discriminate; auto.
Qed.

(** X2: whenever a state reached from the initial state is in step
    'initial', the screen that offers the Terminate button, its
    [termination] is the empty one: no outcome of an earlier batch is
    carried into a new confirmation. *)
Theorem initial_step_has_fresh_termination selectedRuns actions :
  step (reduce (initializeState selectedRuns) actions) = step_initial ->
  termination (reduce (initializeState selectedRuns) actions) =
  {| completed := 0; errors := ∅ |}.
Proof.
  assert (H0 : step (initializeState selectedRuns) = step_initial ->
               termination (initializeState selectedRuns) =
               {| completed := 0; errors := ∅ |}) by reflexivity.
  revert H0. generalize (initializeState selectedRuns).
  induction actions as [|action actions IH]; intros s H; [exact H|].
  rewrite reduce_cons. apply IH. intros Hs. by apply reducer_initial_fresh.
Qed.

Lemma initial_step_has_fresh_termination_witness :
  termination
    (reduce (initializeState [("run-1", true)]%string)
            [start; termination_error "run-1" None; complete;
             reset [("run-2", true)]%string; toggle_force_terminate true]) =
  {| completed := 0; errors := ∅ |}.
Proof.
  apply (initial_step_has_fresh_termination
           [("run-1", true)]%string
           [start; termination_error "run-1" None; complete;
            reset [("run-2", true)]%string; toggle_force_terminate true]).
  reflexivity.
Defined.

Lemma reducer_step_not_initial s action :
  isReset action = false ->
  step s <> step_initial ->
  step (terminationDialogReducer s action) <> step_initial.
Proof.
  destruct action; cbn; intros Hr Hs; try discriminate; auto.
Qed.

Lemma reduce_step_not_initial actions : forall s,
  Forall (fun action => isReset action = false) actions ->
  step s <> step_initial ->
  step (reduce s actions) <> step_initial.
Proof.
  induction actions as [|action actions IH]; intros s Hall Hs; [exact Hs|].
  apply Forall_cons in Hall as [Ha Hall].
  rewrite reduce_cons. apply IH; [exact Hall|].
  by apply reducer_step_not_initial.
Qed.

(** X3: once 'start' has been dispatched, no sequence of actions without
    'reset' brings the dialog back to step 'initial': until the dialog is
    reset, no rendered button calls [mutate] and the force checkbox is not
    rendered, so a batch cannot be started twice nor its policy changed. *)
Theorem started_batch_cannot_be_restarted s actions :
  Forall (fun action => isReset action = false) actions ->
  let s' := reduce s (start :: actions) in
  step s' <> step_initial /\
  (forall b, b ∈ buttons s' -> onClick b <> Some handler_mutate) /\
  checkboxRendered s' = false.
Proof.
  intros Hall. cbn zeta. rewrite reduce_cons.
  assert (Hs : step (reduce (terminationDialogReducer s start) actions) <> step_initial).
  { apply reduce_step_not_initial; [exact Hall|]. discriminate. }
  split; [exact Hs|]. unfold buttons, checkboxRendered.
  destruct (step (reduce (terminationDialogReducer s start) actions)); [contradiction| |].
  - split; [|reflexivity]. intros b Hb.
    apply list_elem_of_singleton in Hb as ->. discriminate.
  - split; [|reflexivity]. intros b Hb.
    apply list_elem_of_singleton in Hb as ->. discriminate.
Qed.

Lemma started_batch_cannot_be_restarted_witness :
  let s' := reduce (initializeState [("run-1", true)]%string)
                   [start; termination_success; toggle_force_terminate true; complete] in
  step s' <> step_initial /\
  (forall b, b ∈ buttons s' -> onClick b <> Some handler_mutate) /\
  checkboxRendered s' = false.
Proof.
  apply (started_batch_cannot_be_restarted
           (initializeState [("run-1", true)]%string)
           [termination_success; toggle_force_terminate true; complete]).
  repeat constructor.
Defined.

Lemma reducer_forced_or_checkbox s action :
  dispatchable s action = true ->
  (showCheckbox s = false -> mustForce s = true) ->
  showCheckbox (terminationDialogReducer s action) = false ->
  mustForce (terminationDialogReducer s action) = true.
Proof.
  unfold showCheckbox, dispatchable, checkboxRendered.
  destruct action;
    cbn [terminationDialogReducer initializeState frozenRuns mustForce];
    intros Hd H Hc; auto.
  - rewrite Hc. reflexivity.
  - destruct (step s); try discriminate.
    apply andb_true_iff in Hd as [_ Hd]. unfold showCheckbox in Hd. congruence.
Qed.

(** X4: when none of the frozen runs has [canTerminate], the dialog is
    forced in every state it can reach: the checkbox that could switch
    [mustForce] off is never rendered for such a selection, so the policy
    handed to [terminate] is MARK_AS_CANCELED_IMMEDIATELY. *)
Theorem selection_without_canTerminate_is_always_forced selectedRuns actions :
  dispatchableFrom (initializeState selectedRuns) actions = true ->
  let s := reduce (initializeState selectedRuns) actions in
  showCheckbox s = false ->
  mustForce s = true /\ policy s = MARK_AS_CANCELED_IMMEDIATELY.
Proof.
  intros Hd. cbn zeta.
  enough (showCheckbox (reduce (initializeState selectedRuns) actions) = false ->
          mustForce (reduce (initializeState selectedRuns) actions) = true) as H.
  { intros Hc. unfold policy. rewrite (H Hc). by split. }
  assert (H0 : showCheckbox (initializeState selectedRuns) = false ->
               mustForce (initializeState selectedRuns) = true).
  { unfold showCheckbox. cbn [initializeState frozenRuns mustForce].
    intros ->. reflexivity. }
  revert Hd H0. generalize (initializeState selectedRuns).
  induction actions as [|action actions IH]; intros s Hd H; [exact H|].
  cbn [dispatchableFrom] in Hd. apply andb_true_iff in Hd as [Ha Hd].
  rewrite reduce_cons. apply IH; [exact Hd|].
  by apply reducer_forced_or_checkbox.
Qed.

Lemma selection_without_canTerminate_is_always_forced_witness :
  let s := reduce (initializeState [("run-1", true)]%string)
                  [toggle_force_terminate true; reset [("run-2", false)]%string; start] in
  mustForce s = true /\ policy s = MARK_AS_CANCELED_IMMEDIATELY.
Proof.
  apply (selection_without_canTerminate_is_always_forced
           [("run-1", true)]%string
           [toggle_force_terminate true; reset [("run-2", false)]%string; start]);
    reflexivity.
Defined.

(** ** The outcome of a whole batch in the dialog state *)

(** X5: after a batch whose mutations resolved and that began with an
    empty [errors] object, [errors] has an entry for a run id exactly when
    that id is one of the frozen runs and its result was not
    TerminateRunSuccess, and the entry is that result; no other id is ever
    listed. *)
Theorem batch_errors_exact backend state current :
  allResolve backend (policy state) (Object_keys (frozenRuns state)) = true ->
  errors (termination current) = ∅ ->
  forall runId e,
    errors (termination (stateAfterMutate backend state current)) !! runId = Some e <->
    runId ∈ Object_keys (frozenRuns state) /\
    backend runId (policy state) = Returned (dataOf backend runId (policy state)) /\
    isTerminateRunSuccess (dataOf backend runId (policy state)) = false /\
    e = payload (dataOf backend runId (policy state)).
Proof.
  intros Hall Hempty runId e.
  destruct (stateAfterMutate_eq backend state current Hall) as (_ & He & _).
  rewrite He, recordErrors_lookup, Hempty. case_decide as H.
  - split.
    + intros [= <-]. destruct H as [Hin Hf]. repeat split; [exact Hin| |exact Hf].
      by apply (allResolve_elem _ _ _ _ Hall).
    + intros (_ & _ & _ & ->). reflexivity.
  - rewrite lookup_empty. split; [discriminate|].
    intros (Hin & _ & Hf & _). exfalso. apply H. by split.
Qed.

Lemma batch_errors_exact_witness :
  let state := initializeState [("run-1", true); ("run-2", true)]%string in
  let backend := fun (runId : string) (_ : TerminateRunPolicy) =>
                   Returned (if String.eqb runId "run-2" then failure_data
                             else success_data) in
  errors (termination (stateAfterMutate backend state state)) !! "run-2"%string =
  Some (payload failure_data).
Proof.
  intros state backend.
  apply (proj2 (batch_errors_exact backend state state eq_refl eq_refl
                  "run-2"%string (payload failure_data))).
  split; [|repeat split].
  apply elem_of_cons. right. apply elem_of_cons. left. reflexivity.
Defined.

Lemma size_recordErrors answers terminatePolicy runList : forall m,
  NoDup runList ->
  (forall runId, runId ∈ runList -> m !! runId = None) ->
  size (recordErrors answers terminatePolicy runList m) =
  (size m +
   length (List.filter (fun runId =>
                          negb (isTerminateRunSuccess (answers runId terminatePolicy)))
                       runList))%nat.
Proof.
  induction runList as [|r rest IH]; intros m Hnd Hfresh.
  - cbn. lia.
  - apply NoDup_cons in Hnd as [Hr Hnd]. rewrite recordErrors_cons.
    cbn [List.filter].
    destruct (isTerminateRunSuccess (answers r terminatePolicy)); cbn [negb].
    + apply IH; [exact Hnd|]. intros runId Hin. apply Hfresh, elem_of_cons. auto.
    + rewrite IH; [|exact Hnd|].
      * rewrite map_size_insert_None; [cbn [length]; lia|].
        apply Hfresh, elem_of_cons. auto.
      * intros runId Hin. rewrite lookup_insert_ne.
        -- apply Hfresh, elem_of_cons. auto.
        -- intros ->. contradiction.
Qed.

Lemma filter_split_length {A} (f : A -> bool) (l : list A) :
  (length (List.filter f l) + length (List.filter (fun x => negb (f x)) l))%nat =
  length l.
Proof.
  induction l as [|x l IH]; [reflexivity|].
  cbn [List.filter]. destruct (f x); cbn [negb length]; lia.
Qed.

Lemma stateAfterMutate_sizes backend state current :
  allResolve backend (policy state) (Object_keys (frozenRuns state)) = true ->
  NoDup (Object_keys (frozenRuns state)) ->
  termination current = {| completed := 0; errors := ∅ |} ->
  let final := stateAfterMutate backend state current in
  size (errors (termination final)) =
    length (List.filter
              (fun runId =>
                 negb (isTerminateRunSuccess (dataOf backend runId (policy state))))
              (Object_keys (frozenRuns state))) /\
  completed (termination final) =
    Z.of_nat (length (Object_keys (frozenRuns state))).
Proof.
  intros Hall Hnd Hfresh. cbn zeta.
  destruct (stateAfterMutate_eq backend state current Hall) as (Hc & He & _).
  rewrite Hc, He, Hfresh. cbn [completed errors].
  rewrite size_recordErrors; [|exact Hnd|intros; apply lookup_empty].
  rewrite map_size_empty. split; lia.
Qed.

(** X6: for frozen runs with distinct ids and a batch whose mutations
    resolved and that began with the empty [termination], the summary of
    [completionContent] counts each run once: the error count is the
    number of runs whose result was not TerminateRunSuccess, the success
    count is the number of runs whose result was, and the two add up to
    [count]. *)
Theorem batch_summary_counts backend state current :
  allResolve backend (policy state) (Object_keys (frozenRuns state)) = true ->
  NoDup (Object_keys (frozenRuns state)) ->
  termination current = {| completed := 0; errors := ∅ |} ->
  let final := stateAfterMutate backend state current in
  let succeeded runId := isTerminateRunSuccess (dataOf backend runId (policy state)) in
  errorCount final =
    Z.of_nat (length (List.filter (fun runId => negb (succeeded runId))
                                  (Object_keys (frozenRuns state)))) /\
  successCount final =
    Z.of_nat (length (List.filter succeeded (Object_keys (frozenRuns state)))) /\
  successCount final + errorCount final = Z.of_nat (count state).
Proof.
  intros Hall Hnd Hfresh. cbn zeta.
  destruct (stateAfterMutate_sizes backend state current Hall Hnd Hfresh) as (He & Hc).
  unfold successCount, errorCount, count. rewrite Hc, He.
  pose proof (filter_split_length
                (fun runId => isTerminateRunSuccess (dataOf backend runId (policy state)))
                (Object_keys (frozenRuns state))) as Hsplit.
  cbn beta in Hsplit. lia.
Qed.

Lemma batch_summary_counts_witness :
  let state := initializeState [("run-1", true); ("run-2", true); ("run-3", false)]%string in
  let backend := fun (runId : string) (_ : TerminateRunPolicy) =>
                   Returned (if String.eqb runId "run-2" then failure_data
                             else success_data) in
  let final := stateAfterMutate backend state state in
  errorCount final = 1 /\ successCount final = 2 /\
  successCount final + errorCount final = 3.
Proof.
  intros state backend final.
  refine (batch_summary_counts backend state state eq_refl _ eq_refl).
  apply (bool_decide_unpack _). vm_compute. exact I.
Defined.

(** ** The dialog while a batch is running *)

Lemma reduce_outcomes_step answers (terminatePolicy : TerminateRunPolicy) runList :
  forall s,
  step s = step_terminating ->
  step (reduce s (map (fun runId =>
                         outcomeAction (answers runId terminatePolicy) runId)
                      runList)) = step_terminating.
Proof.
  induction runList as [|runId rest IH]; intros s Hs; [exact Hs|].
  cbn [map]. rewrite reduce_cons. apply IH.
  unfold outcomeAction.
  destruct (isTerminateRunSuccess (answers runId terminatePolicy)); reflexivity.
Qed.

(** A non-empty prefix of what [mutate] dispatches, proper or of a batch
    that a rejected mutation cut short, is 'start' followed by the outcomes
    of the first runs of the batch, whose mutations resolved. *)
Lemma mutate_dispatched_prefix backend state pre post :
  dispatched (fst (mutate backend state)) = pre ++ post ->
  pre <> [] ->
  post <> [] \/
    allResolve backend (policy state) (Object_keys (frozenRuns state)) = false ->
  exists processed remaining,
    Object_keys (frozenRuns state) = processed ++ remaining /\
    allResolve backend (policy state) processed = true /\
    pre = start :: map (fun runId =>
                          outcomeAction (dataOf backend runId (policy state)) runId)
                       processed.
Proof.
  intros Heq Hpre Hcut.
  destruct (first_rejection backend (policy state) (Object_keys (frozenRuns state)))
    as [Hall|(l1 & runId & l2 & what & Hk & Hall & Hrej)].
  - destruct Hcut as [Hpost|Hno]; [|congruence].
    rewrite dispatched_mutate in Heq by exact Hall.
    destruct pre as [|a pre']; [contradiction|].
    destruct (exists_last Hpost) as (post' & x & ->).
    cbn [app] in Heq. injection Heq as <- Heq.
    rewrite app_assoc in Heq. apply app_inj_tail in Heq as [Heq _].
    apply map_eq_app in Heq as (processed & remaining & Hk & Hp & _).
    exists processed, remaining. split; [exact Hk|]. split; [|by rewrite Hp].
    rewrite Hk, allResolve_app in Hall. by apply andb_true_iff in Hall as [? _].
  - rewrite (dispatched_mutate_rejected _ _ _ _ _ _ Hk Hall Hrej) in Heq.
    destruct pre as [|a pre']; [contradiction|].
    cbn [app] in Heq. injection Heq as <- Heq.
    apply map_eq_app in Heq as (processed & rest & Hl1 & Hp & _).
    exists processed, (rest ++ runId :: l2). split; [|split].
    + by rewrite Hk, Hl1, <- app_assoc.
    + rewrite Hl1, allResolve_app in Hall. by apply andb_true_iff in Hall as [? _].
    + by rewrite Hp.
Qed.

(** X7: from the dispatch of 'start' until just before 'complete', at every
    point of a batch the dialog is in step 'terminating': it cannot be
    closed by Escape or by a click outside and its only button is the
    disabled one; this is also where a batch cut short by a rejected
    mutation stays.  Once [mutate] has dispatched everything of a batch
    whose mutations resolve, the dialog can be closed again and shows
    Done. *)
Theorem batch_blocks_quick_close backend state current pre post :
  dispatched (fst (mutate backend state)) = pre ++ post ->
  pre <> [] ->
  (post <> [] \/
     allResolve backend (policy state) (Object_keys (frozenRuns state)) = false ->
   canQuicklyClose (reduce current pre) = false /\
   buttons (reduce current pre) = [button_Terminating]) /\
  (allResolve backend (policy state) (Object_keys (frozenRuns state)) = true ->
   canQuicklyClose (reduce current (pre ++ post)) = true /\
   buttons (reduce current (pre ++ post)) = [button_Done]).
Proof.
  intros Heq Hpre. split.
  - intros Hcut.
    destruct (mutate_dispatched_prefix backend state pre post Heq Hpre Hcut)
      as (processed & remaining & _ & _ & ->).
    rewrite reduce_cons.
    pose proof (reduce_outcomes_step (dataOf backend) (policy state) processed
                  (terminationDialogReducer current start) eq_refl) as Hs.
    unfold canQuicklyClose, buttons. rewrite Hs. by split.
  - intros Hall. rewrite <- Heq.
    destruct (stateAfterMutate_eq backend state current Hall) as (_ & _ & Hs).
    unfold stateAfterMutate in Hs.
    unfold canQuicklyClose, buttons. rewrite Hs. by split.
Qed.

Lemma batch_blocks_quick_close_witness :
  let s := initializeState [("run-1", true); ("run-2", true)]%string in
  let resolving := fun (runId : string) (_ : TerminateRunPolicy) =>
                     Returned (if String.eqb runId "run-2" then failure_data
                               else success_data) in
  let rejecting := fun (runId : string) (_ : TerminateRunPolicy) =>
                     if String.eqb runId "run-2" then Thrown "Failed to fetch"
                     else Returned success_data in
  (canQuicklyClose (reduce s [start; termination_success]) = false /\
   buttons (reduce s [start; termination_success]) = [button_Terminating]) /\
  (canQuicklyClose
     (reduce s ([start; termination_success] ++
                [termination_error "run-2" (payload failure_data); complete])) = true /\
   buttons
     (reduce s ([start; termination_success] ++
                [termination_error "run-2" (payload failure_data); complete])) =
   [button_Done]) /\
  dispatched (fst (mutate rejecting s)) = [start; termination_success] ++ [] /\
  canQuicklyClose (reduce s (dispatched (fst (mutate rejecting s)))) = false.
Proof.
  intros s resolving rejecting.
  destruct (batch_blocks_quick_close resolving s s
              [start; termination_success]
              [termination_error "run-2" (payload failure_data); complete]
              eq_refl ltac:(discriminate)) as [Hlocked Hdone].
  destruct (batch_blocks_quick_close rejecting s s
              [start; termination_success] [] eq_refl ltac:(discriminate))
    as [Hstuck _].
  split; [apply Hlocked; left; discriminate|].
  split; [apply Hdone; reflexivity|].
  split; [reflexivity|].
  apply Hstuck. right. reflexivity.
Defined.

(** X8: at every point of a batch, also of one cut short by a rejected
    mutation, the dialog state reflects exactly the runs processed so far,
    a leading part of the frozen run ids whose mutations resolved:
    [completed] has grown by their number, which never exceeds [count],
    and [errors] holds their failures and nothing of the runs still to
    come. *)
Theorem batch_progress_tracks_processed_runs backend state current pre post :
  dispatched (fst (mutate backend state)) = pre ++ post ->
  pre <> [] ->
  post <> [] \/
    allResolve backend (policy state) (Object_keys (frozenRuns state)) = false ->
  exists processed remaining,
    Object_keys (frozenRuns state) = processed ++ remaining /\
    allResolve backend (policy state) processed = true /\
    completed (termination (reduce current pre)) =
      completed (termination current) + Z.of_nat (length processed) /\
    (length processed <= count state)%nat /\
    errors (termination (reduce current pre)) =
      recordErrors (dataOf backend) (policy state) processed
                   (errors (termination current)).
Proof.
  intros Heq Hpre Hcut.
  destruct (mutate_dispatched_prefix backend state pre post Heq Hpre Hcut)
    as (processed & remaining & Hk & Hres & ->).
  exists processed, remaining. split; [exact Hk|]. split; [exact Hres|].
  rewrite reduce_cons.
  destruct (reduce_outcomes (dataOf backend) (policy state) processed
              (terminationDialogReducer current start)) as (Hc & He & _ & _).
  rewrite Hc, He. split; [reflexivity|]. split; [|reflexivity].
  unfold count. rewrite Hk, length_app. lia.
Qed.

Lemma batch_progress_tracks_processed_runs_witness :
  let s := initializeState [("run-1", true); ("run-2", true)]%string in
  let backend := fun (runId : string) (_ : TerminateRunPolicy) =>
                   Returned (if String.eqb runId "run-2" then failure_data
                             else success_data) in
  exists processed remaining,
    Object_keys (frozenRuns s) = processed ++ remaining /\
    allResolve backend (policy s) processed = true /\
    completed (termination (reduce s [start; termination_success])) =
      completed (termination s) + Z.of_nat (length processed) /\
    (length processed <= count s)%nat /\
    errors (termination (reduce s [start; termination_success])) =
      recordErrors (dataOf backend) (policy s) processed (errors (termination s)).
Proof.
  intros s backend.
  apply (batch_progress_tracks_processed_runs backend s s
           [start; termination_success]
           [termination_error "run-2" (payload failure_data); complete]).
  - reflexivity.
  - discriminate.
  - left. discriminate.
Defined.

(** ** The frozen list across renders *)

Lemma run_snoc props evs ev :
  Hooks.run props (evs ++ [ev]) = Hooks.handle (Hooks.run props evs) ev.
Proof. unfold Hooks.run. by rewrite fold_left_app. Qed.

Lemma lastClosedSelection_snoc props evs ev :
  Hooks.lastClosedSelection props (evs ++ [ev]) =
  match ev with
  | Hooks.Rendered p =>
      if Hooks.isOpen p then Hooks.lastClosedSelection props evs
      else Hooks.selectedRuns p
  | Hooks.Dispatched _ => Hooks.lastClosedSelection props evs
  end.
Proof. unfold Hooks.lastClosedSelection. by rewrite fold_left_app. Qed.

Lemma passedObjects_snoc props evs ev :
  Hooks.passedObjects props (evs ++ [ev]) =
  Hooks.passedObjects props evs ++
  match ev with
  | Hooks.Rendered p => [Hooks.selectedRuns p]
  | Hooks.Dispatched _ => []
  end.
Proof.
  unfold Hooks.passedObjects. rewrite omap_app. destruct ev; reflexivity.
Qed.

Lemma hooks_invariant_mount props :
  hooks_invariant (Hooks.mount props) (Hooks.selectedRuns props)
                  [Hooks.selectedRuns props].
Proof.
  unfold Hooks.mount, Hooks.resetEffect, Hooks.freezeEffect.
  destruct (Hooks.isOpen props) eqn:Eo; cbn; split; cbn;
    try (apply list_elem_of_singleton; reflexivity);
    try reflexivity; try congruence.
Qed.

Lemma hooks_invariant_rerender inst sel seen p :
  hooks_invariant inst sel seen ->
  hooks_invariant (Hooks.rerender inst p)
                  (if Hooks.isOpen p then sel else Hooks.selectedRuns p)
                  (seen ++ [Hooks.selectedRuns p]).
Proof.
  intros [Hr Hs Ha Hc Ho].
  unfold Hooks.rerender, Hooks.isOpenChanged, Hooks.isOpenOrSelectedRunsChanged,
    Hooks.resetEffect, Hooks.freezeEffect.
  destruct (Hooks.isOpen p) eqn:Ep, (Hooks.isOpen (Hooks.prevProps inst)) eqn:Eprev;
    cbn [Bool.eqb negb orb andb].
  - (* open, and it was open *)
    destruct (negb _); split; cbn; rewrite ?Ep;
      try (apply elem_of_app; left; assumption); auto; discriminate.
  - (* newly open *)
    split; cbn; rewrite ?Ep;
      try (apply elem_of_app; left; assumption); auto; discriminate.
  - (* newly closed *)
    split; cbn; rewrite ?Ep;
      try (apply elem_of_app; right; apply list_elem_of_singleton; reflexivity);
      auto; discriminate.
  - (* closed, and it was closed *)
    destruct (Nat.eqb (Hooks.address (Hooks.selectedRuns (Hooks.prevProps inst)))
                      (Hooks.address (Hooks.selectedRuns p))) eqn:Eaddr;
      cbn [negb]; split; cbn; rewrite ?Ep;
      try (apply elem_of_app; right; apply list_elem_of_singleton; reflexivity);
      try (apply elem_of_app; left; assumption);
      auto; try discriminate.
    apply Nat.eqb_eq in Eaddr. rewrite Ha, (Hc eq_refl). exact Eaddr.
Qed.

Lemma hooks_invariant_run props evs :
  forallb Hooks.fromHandlers evs = true ->
  hooks_invariant (Hooks.run props evs)
                  (Hooks.lastClosedSelection props evs)
                  (Hooks.passedObjects props evs).
Proof.
  induction evs as [|ev evs IH] using rev_ind; intros Hall.
  - apply hooks_invariant_mount.
  - rewrite forallb_app in Hall. apply andb_true_iff in Hall as [Hall Hev].
    specialize (IH Hall).
    rewrite run_snoc, lastClosedSelection_snoc, passedObjects_snoc.
    destruct ev as [p|action]; cbn [Hooks.handle].
    + by apply hooks_invariant_rerender.
    + cbn in Hev. rewrite andb_true_r in Hev. apply negb_true_iff in Hev.
      destruct IH as [Hr Hs Ha Hc Ho]. rewrite app_nil_r.
      split; cbn; auto.
      intros Hopen. rewrite reducer_frozenRuns_step by exact Hev. auto.
Qed.

(** X9: whenever the dialog is open, the runs in its state are those of the
    [selectedRuns] prop at the last render in which it was closed (at the
    first render, if it has been open ever since), as long as the parent
    does not change an object it has passed: a new selection passed while
    the dialog is open is ignored, whatever the handlers dispatch. *)
Theorem open_dialog_keeps_last_closed_selection props evs :
  Hooks.immutable (Hooks.passedObjects props evs) ->
  forallb Hooks.fromHandlers evs = true ->
  Hooks.isOpen (Hooks.prevProps (Hooks.run props evs)) = true ->
  frozenRuns (Hooks.state (Hooks.run props evs)) =
  Hooks.fields (Hooks.lastClosedSelection props evs).
Proof.
  intros Himm Hall Hopen.
  destruct (hooks_invariant_run props evs Hall) as [Hr Hs Ha _ Ho].
  rewrite (Ho Hopen). by apply Himm.
Qed.

Lemma open_dialog_keeps_last_closed_selection_witness :
  let closed1 := {| Hooks.isOpen := false;
                    Hooks.selectedRuns :=
                      {| Hooks.address := 1; Hooks.fields := [("run-1", true)]%string |} |} in
  let closed2 := {| Hooks.isOpen := false;
                    Hooks.selectedRuns :=
                      {| Hooks.address := 2;
                         Hooks.fields := [("run-1", true); ("run-2", false)]%string |} |} in
  let open3 := {| Hooks.isOpen := true;
                  Hooks.selectedRuns :=
                    {| Hooks.address := 3; Hooks.fields := [("run-2", false)]%string |} |} in
  let open4 := {| Hooks.isOpen := true;
                  Hooks.selectedRuns :=
                    {| Hooks.address := 4; Hooks.fields := [] |} |} in
  frozenRuns (Hooks.state
                (Hooks.run closed1
                   [Hooks.Rendered closed2; Hooks.Rendered open3;
                    Hooks.Dispatched start; Hooks.Rendered open4])) =
  [("run-1", true); ("run-2", false)]%string.
Proof.
  intros closed1 closed2 open3 open4.
  apply (open_dialog_keeps_last_closed_selection closed1
           [Hooks.Rendered closed2; Hooks.Rendered open3;
            Hooks.Dispatched start; Hooks.Rendered open4]).
  - intros o1 o2 H1 H2 Ha. cbn in H1, H2.
    set_unfold in H1. set_unfold in H2.
    destruct H1 as [E1|[E1|[E1|[E1|[]]]]], H2 as [E2|[E2|[E2|[E2|[]]]]];
      rewrite E1, E2 in Ha |- *; first [reflexivity | discriminate Ha].
  - reflexivity.
  - reflexivity.
Defined.

(** ** The summary after a batch, and the empty selection *)

Lemma filter_length_zero_existsb {A} (f : A -> bool) (l : list A) :
  (Z.of_nat (length (List.filter f l)) =? 0) = negb (existsb f l).
Proof.
  induction l as [|x l IH]; [reflexivity|].
  cbn [List.filter existsb]. destruct (f x); [|exact IH].
  cbn [orb negb length]. apply Z.eqb_neq. lia.
Qed.

(** X10: after a batch over frozen runs with distinct ids whose mutations
    resolved and that began with the empty [termination],
    [completionContent] renders the success line exactly when some run's
    result was TerminateRunSuccess and the error list exactly when some
    run's result was not; for a batch of at least one run it renders at
    least one of the two. *)
Theorem batch_summary_lines backend state current :
  allResolve backend (policy state) (Object_keys (frozenRuns state)) = true ->
  NoDup (Object_keys (frozenRuns state)) ->
  termination current = {| completed := 0; errors := ∅ |} ->
  let succeeded runId := isTerminateRunSuccess (dataOf backend runId (policy state)) in
  let successLine := existsb succeeded (Object_keys (frozenRuns state)) in
  let errorList :=
    existsb (fun runId => negb (succeeded runId)) (Object_keys (frozenRuns state)) in
  completionContent (stateAfterMutate backend state current) =
    content_summary successLine errorList /\
  (count state <> 0%nat -> successLine || errorList = true).
Proof.
  intros Hall Hnd Hfresh. cbn zeta. split.
  - destruct (stateAfterMutate_sizes backend state current Hall Hnd Hfresh) as (He & Hc).
    destruct (stateAfterMutate_eq backend state current Hall) as (_ & _ & Hstep).
    pose proof (filter_split_length
                  (fun runId => isTerminateRunSuccess (dataOf backend runId (policy state)))
                  (Object_keys (frozenRuns state))) as Hsplit.
    cbn beta in Hsplit.
    unfold completionContent, successCount, errorCount. rewrite Hstep, Hc, He.
    replace (Z.of_nat (length (Object_keys (frozenRuns state))) -
             Z.of_nat (length (List.filter
               (fun runId =>
                  negb (isTerminateRunSuccess (dataOf backend runId (policy state))))
               (Object_keys (frozenRuns state)))))
      with (Z.of_nat (length (List.filter
               (fun runId => isTerminateRunSuccess (dataOf backend runId (policy state)))
               (Object_keys (frozenRuns state))))) by lia.
    rewrite !filter_length_zero_existsb, !negb_involutive. reflexivity.
  - unfold count. clear Hnd Hall.
    destruct (Object_keys (frozenRuns state)) as [|r rest]; [contradiction|].
    intros _. cbn [existsb].
    destruct (isTerminateRunSuccess (dataOf backend r (policy state))); cbn [negb orb];
      [reflexivity|apply orb_true_r].
Qed.

Lemma batch_summary_lines_witness :
  let state := initializeState [("run-1", true); ("run-2", true)]%string in
  let backend := fun (_ : string) (_ : TerminateRunPolicy) => Returned success_data in
  completionContent (stateAfterMutate backend state state) = content_summary true false.
Proof.
  intros state backend.
  refine (proj1 (batch_summary_lines backend state state eq_refl _ eq_refl)).
  apply (bool_decide_unpack _). vm_compute. exact I.
Defined.

Lemma reduce_frozenRuns actions : forall s,
  Forall (fun action => isReset action = false) actions ->
  frozenRuns (reduce s actions) = frozenRuns s.
Proof.
  induction actions as [|action actions IH]; intros s Hall; [reflexivity|].
  apply Forall_cons in Hall as [Ha Hall].
  rewrite reduce_cons, IH by exact Hall. by apply reducer_frozenRuns_step.
Qed.

(** X11: a dialog whose frozen selection is empty never offers a way to
    start a batch or to change the policy: until it is reset with another
    selection, no rendered button calls [mutate] and the checkbox is not
    rendered, whatever is dispatched. *)
Theorem empty_selection_never_starts_a_batch s actions :
  count s = 0%nat ->
  Forall (fun action => isReset action = false) actions ->
  let s' := reduce s actions in
  count s' = 0%nat /\
  (forall b, b ∈ buttons s' -> onClick b <> Some handler_mutate) /\
  checkboxRendered s' = false.
Proof.
  intros Hc Hall. cbn zeta.
  assert (Hc' : count (reduce s actions) = 0%nat).
  { unfold count. rewrite reduce_frozenRuns by exact Hall. exact Hc. }
  split; [exact Hc'|]. unfold buttons, checkboxRendered. rewrite Hc'.
  destruct (step (reduce s actions)); cbn; (split; [|reflexivity]);
    intros b Hb; apply list_elem_of_singleton in Hb as ->; discriminate.
Qed.

Lemma empty_selection_never_starts_a_batch_witness :
  let s' := reduce (initializeState []) [toggle_force_terminate false; complete] in
  count s' = 0%nat /\
  (forall b, b ∈ buttons s' -> onClick b <> Some handler_mutate) /\
  checkboxRendered s' = false.
Proof.
  apply (empty_selection_never_starts_a_batch (initializeState [])
           [toggle_force_terminate false; complete]).
  - reflexivity.
  - repeat constructor.
Defined.

(** ** Reopening the dialog *)

(** X12: the render that opens a closed dialog replaces its whole state by
    the initial state for the selection of the last render in which it was
    closed: the outcome of an earlier batch, its step and the operator's
    earlier choice of forcing are all discarded, as long as the parent does
    not change an object it has passed. *)
Theorem reopening_resets_dialog props evs p :
  Hooks.immutable (Hooks.passedObjects props (evs ++ [Hooks.Rendered p])) ->
  forallb Hooks.fromHandlers evs = true ->
  Hooks.isOpen (Hooks.prevProps (Hooks.run props evs)) = false ->
  Hooks.isOpen p = true ->
  Hooks.state (Hooks.run props (evs ++ [Hooks.Rendered p])) =
  initializeState (Hooks.fields (Hooks.lastClosedSelection props evs)).
Proof.
  intros Himm Hall Hclosed Hopen.
  destruct (hooks_invariant_run props evs Hall) as [Hr Hs Ha _ _].
  rewrite passedObjects_snoc in Himm.
  assert (Hf : Hooks.fields (Hooks.frozenRuns_current (Hooks.run props evs)) =
               Hooks.fields (Hooks.lastClosedSelection props evs)).
  { apply Himm; [apply elem_of_app; by left | apply elem_of_app; by left | exact Ha]. }
  rewrite run_snoc. cbn [Hooks.handle].
  unfold Hooks.rerender, Hooks.isOpenChanged, Hooks.isOpenOrSelectedRunsChanged,
    Hooks.resetEffect, Hooks.freezeEffect.
  rewrite Hclosed, Hopen. cbn. by rewrite Hf.
Qed.

Lemma reopening_resets_dialog_witness :
  let closed1 := {| Hooks.isOpen := false;
                    Hooks.selectedRuns :=
                      {| Hooks.address := 1; Hooks.fields := [("run-1", true)]%string |} |} in
  let open2 := {| Hooks.isOpen := true;
                  Hooks.selectedRuns :=
                    {| Hooks.address := 1; Hooks.fields := [("run-1", true)]%string |} |} in
  let closed3 := {| Hooks.isOpen := false;
                    Hooks.selectedRuns :=
                      {| Hooks.address := 2; Hooks.fields := [("run-2", false)]%string |} |} in
  let open4 := {| Hooks.isOpen := true;
                  Hooks.selectedRuns :=
                    {| Hooks.address := 2; Hooks.fields := [("run-2", false)]%string |} |} in
  Hooks.state
    (Hooks.run closed1
       ([Hooks.Rendered open2; Hooks.Dispatched (toggle_force_terminate true);
         Hooks.Dispatched start; Hooks.Dispatched (termination_error "run-1" None);
         Hooks.Dispatched complete; Hooks.Rendered closed3] ++
        [Hooks.Rendered open4])) =
  initializeState [("run-2", false)]%string.
Proof.
  intros closed1 open2 closed3 open4.
  apply (reopening_resets_dialog closed1
           [Hooks.Rendered open2; Hooks.Dispatched (toggle_force_terminate true);
            Hooks.Dispatched start; Hooks.Dispatched (termination_error "run-1" None);
            Hooks.Dispatched complete; Hooks.Rendered closed3]
           open4).
  - intros o1 o2 H1 H2 Ha. cbn in H1, H2.
    set_unfold in H1. set_unfold in H2.
    destruct H1 as [E1|[E1|[E1|[E1|[]]]]], H2 as [E2|[E2|[E2|[E2|[]]]]];
      rewrite E1, E2 in Ha |- *; first [reflexivity | discriminate Ha].
  - reflexivity.
  - reflexivity.
  - reflexivity.
Defined.
